(** * Lambda expressions demo (source/main.cpp): a shallow embedding

    The program is one translation unit: the function template [operation]
    and [main], which runs four brace-delimited blocks in sequence.  The
    embedding follows the source statement by statement:

    - [int] values are [Z], with the range of a 32-bit [int] written out;
      signed overflow is undefined behaviour in C++ and is a [Fault];
    - [cout] is a string that grows, [cin] a list of pending characters;
    - the block that demonstrates captures keeps its automatic variables in
      a finite map from names to values, so that a by-value capture is a
      copy stored in the closure object and a by-reference capture is the
      name of the variable it aliases;
    - the template parameter [class op] of [operation] is a type class. *)

From stdpp Require Import gmap strings list fin_maps pretty.

Local Open Scope Z_scope.

(** ** The type [int] *)

Definition INT_MIN : Z := -2147483648.
Definition INT_MAX : Z := 2147483647.

Definition in_int (n : Z) : bool := (INT_MIN <=? n) && (n <=? INT_MAX).

(** ** Values of automatic variables

    [int thing;] declares an [int] without initialiser: its value is
    indeterminate.  The two capturing lambdas of the third block give
    closure objects with one data member each, both called [a] in the
    source: a copy of an [int] for [[a = two]], a reference for
    [[&a = thing]]. *)

Record lessThan2_closure := LessThan2Closure { lessThan2_a : Z }.
Record setThing_closure := SetThingClosure { setThing_a : string }.

Inductive value :=
| Indeterminate
| Int (n : Z)
| ObjLessThan2 (c : lessThan2_closure)
| ObjSetThing (c : setThing_closure).

(** ** Program state and the monad of statements *)

Record state := State {
  out : string;               (* what has been written to cout *)
  inp : list Ascii.ascii;     (* what is still to be read from cin *)
  locals : gmap string value  (* automatic variables in scope *)
}.

Inductive fault :=
| UndefinedBehaviour
| BadFunctionCall.            (* std::bad_function_call *)

Inductive outcome (A : Type) :=
| Ok (a : A) (st : state)
| Fault (f : fault).
Arguments Ok {A} a st.
Arguments Fault {A} f.

Definition M (A : Type) : Type := state → outcome A.

#[global] Instance M_ret : MRet M := λ A a st, Ok a st.
#[global] Instance M_bind : MBind M := λ A B k c st,
  match c st with
  | Ok a st' => k a st'
  | Fault f => Fault f
  end.

Definition raise {A} (f : fault) : M A := λ _, Fault f.

Definition returned {A} (o : outcome A) : option A :=
  match o with
  | Ok a _ => Some a
  | Fault _ => None
  end.

Definition written {A} (o : outcome A) : option string :=
  match o with
  | Ok _ st => Some (out st)
  | Fault _ => None
  end.

(** ** Streams *)

Definition endl_char : string := String (Ascii.ascii_of_nat 10) EmptyString.

Definition put (s : string) (st : state) : state :=
  State (out st +:+ s) (inp st) (locals st).

(* cout << "..." *)
Definition cout_str (s : string) : M unit := λ st, Ok () (put s st).
(* cout << n, for an int n *)
Definition cout_int (n : Z) : M unit := cout_str (pretty n).
(* cout << endl *)
Definition endl : M unit := cout_str endl_char.

(* cin.get(): the next character, or EOF (-1) when there is none *)
Definition cin_get : M Z := λ st,
  match inp st with
  | [] => Ok (-1) st
  | c :: rest => Ok (Z.of_nat (Ascii.nat_of_ascii c)) (State (out st) rest (locals st))
  end.

(** ** Automatic variables *)

Definition declare (x : string) (v : value) : M unit := λ st,
  Ok () (State (out st) (inp st) (<[x := v]> (locals st))).

Definition lookup_var (x : string) : M value := λ st,
  match locals st !! x with
  | Some v => Ok v st
  | None => Fault UndefinedBehaviour
  end.

(* reading an int variable; an indeterminate value must not be read *)
Definition read_int (x : string) : M Z :=
  v ← lookup_var x;
  match v with
  | Int n => mret n
  | _ => raise UndefinedBehaviour
  end.

(* does the value belong to a variable of type int? *)
Definition is_int (v : value) : bool :=
  match v with
  | Indeterminate | Int _ => true
  | ObjLessThan2 _ | ObjSetThing _ => false
  end.

(* assignment through a name or a reference to a live int variable *)
Definition write_int (x : string) (n : Z) : M unit :=
  v ← lookup_var x;
  if is_int v then declare x (Int n) else raise UndefinedBehaviour.

(* x names a live int variable of the state *)
Definition holds_int (st : state) (x : string) : bool :=
  match locals st !! x with
  | Some v => is_int v
  | None => false
  end.

(* { ... }: the variables declared inside are gone at the closing brace *)
Definition block (body : M unit) : M unit := λ st,
  match body st with
  | Ok _ st' => Ok () (State (out st') (inp st') (locals st))
  | Fault f => Fault f
  end.

(** ** Arithmetic on [int] *)

Definition int_add (a b : Z) : M Z :=
  if in_int (a + b) then mret (a + b) else raise UndefinedBehaviour.

Definition int_mul (a b : Z) : M Z :=
  if in_int (a * b) then mret (a * b) else raise UndefinedBehaviour.

(** ** [template<class op> int operation(int a, int b, op func)]

    [op] is any type with a call operator taking two ints and returning an
    int; the call may have effects of its own. *)

Class Callable (op : Type) := call : op → Z → Z → M Z.

Definition operation `{Callable op} (a b : Z) (func : op) : M Z :=
  result ← call func a b;
  cout_int result;;
  endl;;
  mret result.

(** ** First block: [struct printFunctor] *)

Inductive printFunctor := PrintFunctor.

#[global] Instance printFunctor_call : Callable printFunctor := λ _ a b,
  cout_int a;;
  cout_str " ";;
  cout_int b;;
  endl;;
  mret 0.

Definition block_functor : M unit :=
  block (
    cout_str "calling functor with template function:";; endl;;
    let p := PrintFunctor in
    operation 2 3 p;;
    cin_get;;
    mret ()).

(** ** Second block: the lambda [addition] *)

Inductive addition_closure := Addition.

#[global] Instance addition_call : Callable addition_closure := λ _ a b,
  int_add a b.

Definition block_lambda : M unit :=
  block (
    let addition := Addition in
    cout_str "calling lambda defined function:";; endl;;
    call addition 2 3;;
    cout_str "passing lambda defined function into template function to be called:";; endl;;
    operation 2 3 addition;;
    cin_get;;
    mret ()).

(** ** Third block: captures *)

(* [] (int a, int b) { return a > b ? a : b; } *)
Definition larger_lambda (a b : Z) : M Z :=
  mret (if a >? b then a else b).

(* int larger = [] (int a, int b) {...} (2, 3); *)
Definition decl_larger : M unit :=
  r ← larger_lambda 2 3;
  declare "larger" (Int r).

(* int two = 2; *)
Definition decl_two : M unit := declare "two" (Int 2).

(* auto lessThan2 = [a = two] (int b) {...};  the member a is initialised
   with the value two has now *)
Definition decl_lessThan2 : M unit :=
  a ← read_int "two";
  declare "lessThan2" (ObjLessThan2 (LessThan2Closure a)).

(* the body { return a < b ? a : b; } *)
Definition lessThan2_body (self : lessThan2_closure) (b : Z) : M Z :=
  let a := lessThan2_a self in
  mret (if a <? b then a else b).

(* lessThan2(b) *)
Definition call_lessThan2 (b : Z) : M Z :=
  v ← lookup_var "lessThan2";
  match v with
  | ObjLessThan2 self => lessThan2_body self b
  | _ => raise UndefinedBehaviour
  end.

(* int smaller = lessThan2(3); *)
Definition decl_smaller : M unit :=
  r ← call_lessThan2 3;
  declare "smaller" (Int r).

(* int thing; *)
Definition decl_thing : M unit := declare "thing" Indeterminate.

(* cout << "thing: " << thing << endl; *)
Definition print_thing : M unit :=
  cout_str "thing: ";;
  n ← read_int "thing";
  cout_int n;;
  endl.

(* auto setThing = [&a = thing](int b) {...};  the member a is bound to
   the variable thing itself *)
Definition decl_setThing : M unit :=
  lookup_var "thing";;
  declare "setThing" (ObjSetThing (SetThingClosure "thing")).

(* the body { a = b; } *)
Definition setThing_body (self : setThing_closure) (b : Z) : M unit :=
  write_int (setThing_a self) b.

(* setThing(b) *)
Definition call_setThing (b : Z) : M unit :=
  v ← lookup_var "setThing";
  match v with
  | ObjSetThing self => setThing_body self b
  | _ => raise UndefinedBehaviour
  end.

Definition block_capture : M unit :=
  block (
    decl_larger;;
    cout_str "larger of 2 and 3: ";; (n ← read_int "larger"; cout_int n);; endl;;
    decl_two;;
    decl_lessThan2;;
    decl_smaller;;
    cout_str "smaller of 2 and 3: ";; (n ← read_int "smaller"; cout_int n);; endl;;
    decl_thing;;
    print_thing;;
    decl_setThing;;
    call_setThing 2;;
    print_thing;;
    cin_get;;
    mret ()).

(** ** Fourth block: [std::function] and [std::count_if] *)

(* std::function<int(int, int)>: empty, or holding some callable whose
   type is forgotten *)
Inductive function_int_int := EmptyFunction | Target (f : Z → Z → M Z).

#[global] Instance function_call : Callable function_int_int := λ f a b,
  match f with
  | EmptyFunction => raise BadFunctionCall
  | Target g => g a b
  end.

Definition make_function `{Callable op} (f : op) : function_int_int :=
  Target (call f).

(* [] (int a, int b) { return a * b; } *)
Inductive multiply_closure := MultiplyClosure.

#[global] Instance multiply_closure_call : Callable multiply_closure := λ _ a b,
  int_mul a b.

Definition multiply : function_int_int := make_function MultiplyClosure.

(* vector<int> numbers({ 2, 5, 17, 99, 33, -6 }); *)
Definition numbers : list Z := [2; 5; 17; 99; 33; -6].

(* [] (int other) { return other > 10; } *)
Definition greaterThan10 (other : Z) : bool := other >? 10.

(* std::count_if(first, last, pred): one pass from first to last, a
   counter incremented at each element that passes the test *)
Fixpoint count_if_from (range : list Z) (pred : Z → bool) (ret : Z) : Z :=
  match range with
  | [] => ret
  | x :: rest => count_if_from rest pred (if pred x then ret + 1 else ret)
  end.

Definition count_if (range : list Z) (pred : Z → bool) : Z :=
  count_if_from range pred 0.

Definition block_library : M unit :=
  block (
    cout_str "multiply(2, 3): ";; (r ← call multiply 2 3; cout_int r);; endl;;
    let total := count_if numbers greaterThan10 in
    cout_str "numbers in array greater than 10";; cout_int total;; endl;;
    cin_get;;
    mret ()).

(** ** [int main()] *)

Definition main : M Z :=
  block_functor;;
  block_lambda;;
  block_capture;;
  block_library;;
  mret 0.

(** ** States used as concrete inputs *)

Definition initial (input : list Ascii.ascii) : state := State "" input ∅.

(* the scope of the third block once its six declarations have run, in
   the order of the source (the output statements between them left out) *)
Definition capture_scope : state :=
  match (decl_larger;; decl_two;; decl_lessThan2;; decl_smaller;;
         decl_thing;; decl_setThing) (initial []) with
  | Ok _ st => st
  | Fault _ => initial []
  end.

(** * Properties *)

(** ** Generic facts about the monad and the streams *)

Lemma bind_Ok {A B} (c : M A) (k : A → M B) st a st' :
  c st = Ok a st' → (c ≫= k) st = k a st'.
Proof. intros Hc. unfold mbind, M_bind. by rewrite Hc. Qed.

Lemma bind_Fault {A B} (c : M A) (k : A → M B) st f :
  c st = Fault f → (c ≫= k) st = Fault f.
Proof. intros Hc. unfold mbind, M_bind. by rewrite Hc. Qed.

Lemma append_assoc (s1 s2 s3 : string) :
  (s1 +:+ s2) +:+ s3 = s1 +:+ s2 +:+ s3.
Proof.
  induction s1 as [|c s1 IH]; [done |].
  change (String c ((s1 +:+ s2) +:+ s3) = String c (s1 +:+ s2 +:+ s3)).
  by rewrite IH.
Qed.

Lemma put_put s1 s2 st : put s2 (put s1 st) = put (s1 +:+ s2) st.
Proof. unfold put; simpl. by rewrite append_assoc. Qed.

Lemma in_int_spec n : in_int n = true ↔ INT_MIN ≤ n ≤ INT_MAX.
Proof. unfold in_int. rewrite andb_true_iff, !Z.leb_le. done. Qed.

#[local] Ltac run :=
  unfold operation, call, printFunctor_call, addition_call, function_call,
    multiply, make_function, multiply_closure_call, int_add, int_mul,
    cout_int, endl, cout_str, mbind, M_bind, mret, M_ret, raise; simpl.

Lemma operation_run {op} (H : Callable op) (a b : Z) (func : op) (st : state) :
  operation a b func st =
    match call func a b st with
    | Ok r st' => Ok r (put (pretty r +:+ endl_char) st')
    | Fault f => Fault f
    end.
Proof.
  unfold operation.
  destruct (call func a b st) as [r st'|f] eqn:Hcall.
  - rewrite (bind_Ok _ _ _ _ _ Hcall). run. by rewrite put_put.
  - by rewrite (bind_Fault _ _ _ _ Hcall).
Qed.

(** ** [operation] *)

(** C2: for all ints [a], [b] and every callable [func], [operation a b func]
    returns what [func a b] returns, and the state it leaves is the one
    [func] left with the decimal form of the result and a newline appended
    to the output; nothing else changes.  A fault of [func] is passed on. *)
Theorem operation_returns_func {op} (H : Callable op) (a b : Z) (func : op) (st : state) :
  operation a b func st =
    match call func a b st with
    | Ok r st' => Ok r (State (out st' +:+ pretty r +:+ endl_char) (inp st') (locals st'))
    | Fault f => Fault f
    end.
Proof. rewrite operation_run. by destruct (call func a b st). Qed.

(** ** The functor and the capture-free lambdas *)

Lemma printFunctor_run (a b : Z) (st : state) :
  call PrintFunctor a b st =
    Ok 0 (put (pretty a +:+ " " +:+ pretty b +:+ endl_char) st).
Proof. run. by rewrite !put_put. Qed.

(** C5: the call operator of [printFunctor] writes [a], a space, [b] and a
    newline and returns 0 whatever [a] and [b] are; [operation 2 3 p]
    writes the line "2 3" and then the line "0". *)
Theorem printFunctor_prints_and_returns_0 :
  (∀ (a b : Z) (st : state),
     call PrintFunctor a b st =
       Ok 0 (put (pretty a +:+ " " +:+ pretty b +:+ endl_char) st)) ∧
  (∀ st : state,
     operation 2 3 PrintFunctor st =
       Ok 0 (put ("2 3" +:+ endl_char +:+ "0" +:+ endl_char) st)).
Proof.
  split; [apply printFunctor_run |].
  intros st. rewrite operation_run, printFunctor_run, put_put. reflexivity.
Qed.

(** C6: [addition(2, 3)] returns 5 and writes nothing; [operation(2, 3,
    addition)] writes "5" (and the newline of [endl]) and returns 5. *)
Theorem addition_2_3 :
  (∀ st : state, call Addition 2 3 st = Ok 5 st) ∧
  (∀ st : state, operation 2 3 Addition st = Ok 5 (put ("5" +:+ endl_char) st)).
Proof.
  split; intros st.
  - reflexivity.
  - rewrite operation_run. reflexivity.
Qed.

(** ** The [std::function] object [multiply] *)

(** C7: [multiply(2, 3)] returns 6. *)
Theorem multiply_2_3 (st : state) : call multiply 2 3 st = Ok 6 st.
Proof. reflexivity. Qed.

Lemma multiply_run (a b : Z) (st : state) :
  call multiply a b st =
    if in_int (a * b) then Ok (a * b) st else Fault UndefinedBehaviour.
Proof.
  unfold call, function_call, multiply, make_function, call,
    multiply_closure_call, int_mul.
  by destruct (in_int (a * b)).
Qed.

(** C9, as amended: whenever the product of [a] and [b] is representable in
    an [int], [multiply(a, b)] returns exactly that product and changes
    nothing. *)
Theorem multiply_returns_product (a b : Z) (st : state) :
  INT_MIN ≤ a * b ≤ INT_MAX →
  call multiply a b st = Ok (a * b) st.
Proof.
  intros Hrange. rewrite multiply_run.
  by rewrite (proj2 (in_int_spec (a * b)) Hrange).
Qed.

Lemma multiply_returns_product_witness :
  INT_MIN ≤ (-46340) * 46340 ≤ INT_MAX ∧
  call multiply (-46340) 46340 (initial []) = Ok ((-46340) * 46340) (initial []).
Proof.
  assert (Hrange : INT_MIN ≤ (-46340) * 46340 ≤ INT_MAX)
    by (unfold INT_MIN, INT_MAX; lia).
  split; [exact Hrange |].
  exact (multiply_returns_product (-46340) 46340 (initial []) Hrange).
Defined.

(** C9, as stated, fails: 65536 is an [int], but the product 65536 * 65536
    is not, and the call does not return it. *)
Lemma multiply_overflow_counterexample :
  in_int 65536 = true ∧
  call multiply 65536 65536 (initial []) ≠ Ok (65536 * 65536) (initial []).
Proof. split; [reflexivity | discriminate]. Qed.

(** ** [std::count_if] over [numbers] *)

Lemma count_if_from_acc (range : list Z) (pred : Z → bool) (ret : Z) :
  count_if_from range pred ret = ret + count_if range pred.
Proof.
  unfold count_if. revert ret.
  induction range as [|x rest IH]; intros ret; simpl.
  - lia.
  - rewrite IH, (IH (if pred x then 0 + 1 else 0)).
    destruct (pred x); lia.
Qed.

Lemma count_if_cons (x : Z) (rest : list Z) (pred : Z → bool) :
  count_if (x :: rest) pred = (if pred x then 1 else 0) + count_if rest pred.
Proof.
  unfold count_if at 1. simpl. rewrite count_if_from_acc.
  by destruct (pred x).
Qed.

Lemma count_if_Permutation (l1 l2 : list Z) (pred : Z → bool) :
  l1 ≡ₚ l2 → count_if l1 pred = count_if l2 pred.
Proof.
  induction 1 as [|x l1 l2 _ IH|x y l|l1 l2 l3 _ IH12 _ IH23].
  - done.
  - by rewrite !count_if_cons, IH.
  - rewrite !count_if_cons. lia.
  - by rewrite IH12.
Qed.

Lemma count_if_filter (range : list Z) (pred : Z → bool) :
  count_if range pred = Z.of_nat (length (List.filter pred range)).
Proof.
  induction range as [|x rest IH]; [done |].
  rewrite count_if_cons, IH. simpl.
  destruct (pred x); simpl; lia.
Qed.

(** C1, as amended: over [numbers] the count of the elements greater than
    10 is exactly 3; the elements counted are 17, 99 and 33. *)
Theorem count_if_numbers :
  count_if numbers greaterThan10 = 3 ∧
  List.filter greaterThan10 numbers = [17; 99; 33].
Proof. split; reflexivity. Qed.

(** C1, as stated, fails: the count is not 2. *)
Lemma count_if_numbers_not_2 : count_if numbers greaterThan10 ≠ 2.
Proof. discriminate. Qed.

(** C8: every permutation of [numbers] gives the same count of elements
    greater than 10 as [numbers] itself. *)
Theorem count_if_numbers_order_independent (l : list Z) :
  l ≡ₚ numbers →
  count_if l greaterThan10 = count_if numbers greaterThan10.
Proof. apply count_if_Permutation. Qed.

Lemma count_if_numbers_order_independent_witness :
  [-6; 33; 99; 17; 5; 2] ≡ₚ numbers ∧
  count_if [-6; 33; 99; 17; 5; 2] greaterThan10 = count_if numbers greaterThan10.
Proof.
  assert (Hperm : [-6; 33; 99; 17; 5; 2] ≡ₚ numbers).
  { apply (bool_decide_unpack _). vm_compute. reflexivity. }
  split; [exact Hperm |].
  exact (count_if_numbers_order_independent _ Hperm).
Defined.

(** ** Captures *)

(* the variables of the third block after its declarations: [thing] is
   still indeterminate, [lessThan2] holds a copy of 2, [setThing] refers
   to [thing] *)
Example capture_scope_locals :
  locals capture_scope !! "larger" = Some (Int 3) ∧
  locals capture_scope !! "two" = Some (Int 2) ∧
  locals capture_scope !! "lessThan2" = Some (ObjLessThan2 (LessThan2Closure 2)) ∧
  locals capture_scope !! "smaller" = Some (Int 2) ∧
  locals capture_scope !! "thing" = Some Indeterminate ∧
  locals capture_scope !! "setThing" = Some (ObjSetThing (SetThingClosure "thing")) ∧
  size (locals capture_scope) = 6%nat.
Proof. repeat split; reflexivity. Qed.

(* the first output of [thing] reads it before anything was stored in it *)
Example print_thing_indeterminate :
  (decl_thing;; print_thing) (initial []) = Fault UndefinedBehaviour.
Proof. reflexivity. Qed.



Lemma call_lessThan2_run (b : Z) (st : state) (self : lessThan2_closure) :
  locals st !! "lessThan2" = Some (ObjLessThan2 self) →
  call_lessThan2 b st =
    Ok (if lessThan2_a self <? b then lessThan2_a self else b) st.
Proof.
  intros Hobj. unfold call_lessThan2, lookup_var, mbind, M_bind.
  by rewrite Hobj.
Qed.

Lemma write_int_run (x : string) (n : Z) (st : state) :
  holds_int st x = true →
  write_int x n st = Ok () (State (out st) (inp st) (<[x := Int n]> (locals st))).
Proof.
  unfold holds_int, write_int, lookup_var, mbind, M_bind.
  destruct (locals st !! x) as [v|]; [|done].
  by intros ->.
Qed.

Lemma call_setThing_run (b : Z) (st : state) :
  locals st !! "setThing" = Some (ObjSetThing (SetThingClosure "thing")) →
  holds_int st "thing" = true →
  call_setThing b st =
    Ok () (State (out st) (inp st) (<["thing" := Int b]> (locals st))).
Proof.
  intros Hobj Hthing. unfold call_setThing, lookup_var, mbind, M_bind.
  rewrite Hobj. unfold setThing_body; simpl. by apply write_int_run.
Qed.

Lemma read_int_run (x : string) (n : Z) (st : state) :
  locals st !! x = Some (Int n) → read_int x st = Ok n st.
Proof.
  intros Hx. unfold read_int, lookup_var, mbind, M_bind. by rewrite Hx.
Qed.

(** C3: when [two] is 2 at the declaration of [lessThan2], the closure
    returns 2 for the argument 3; and whatever is assigned to [two]
    afterwards, the closure returns for every argument what it returned
    before the assignment, the smaller of 2 and the argument. *)
Theorem lessThan2_value_capture (st : state) :
  locals st !! "two" = Some (Int 2) →
  ∃ st1,
    decl_lessThan2 st = Ok () st1 ∧
    call_lessThan2 3 st1 = Ok 2 st1 ∧
    ∀ n b : Z, ∃ st2,
      write_int "two" n st1 = Ok () st2 ∧
      read_int "two" st2 = Ok n st2 ∧
      returned (call_lessThan2 b st2) = returned (call_lessThan2 b st1) ∧
      returned (call_lessThan2 b st1) = Some (if 2 <? b then 2 else b).
Proof.
  intros Htwo. eexists. split.
  { unfold decl_lessThan2. rewrite (bind_Ok _ _ _ _ _ (read_int_run _ _ _ Htwo)).
    reflexivity. }
  set (st1 := State _ _ _).
  assert (Hobj : locals st1 !! "lessThan2" = Some (ObjLessThan2 (LessThan2Closure 2)))
    by apply lookup_insert_eq.
  split; [by rewrite (call_lessThan2_run _ _ _ Hobj) |].
  intros n b. eexists. split.
  { apply write_int_run. unfold holds_int; simpl.
    rewrite lookup_insert_ne by done. by rewrite Htwo. }
  set (st2 := State _ _ _).
  assert (Hobj2 : locals st2 !! "lessThan2" = Some (ObjLessThan2 (LessThan2Closure 2))).
  { simpl. rewrite lookup_insert_ne by done. apply lookup_insert_eq. }
  split; [apply read_int_run, lookup_insert_eq |].
  by rewrite (call_lessThan2_run _ _ _ Hobj), (call_lessThan2_run _ _ _ Hobj2).
Qed.

Lemma lessThan2_value_capture_witness :
  locals (State "" [] {["two" := Int 2]}) !! "two" = Some (Int 2) ∧
  ∃ st1,
    decl_lessThan2 (State "" [] {["two" := Int 2]}) = Ok () st1 ∧
    call_lessThan2 3 st1 = Ok 2 st1 ∧
    ∀ n b : Z, ∃ st2,
      write_int "two" n st1 = Ok () st2 ∧
      read_int "two" st2 = Ok n st2 ∧
      returned (call_lessThan2 b st2) = returned (call_lessThan2 b st1) ∧
      returned (call_lessThan2 b st1) = Some (if 2 <? b then 2 else b).
Proof.
  split; [reflexivity |].
  apply (lessThan2_value_capture (State "" [] {["two" := Int 2]})).
  reflexivity.
Defined.

(** C4: in a state where [setThing] is the closure whose member [a] refers
    to [thing] and [thing] is a live [int] (initialised or not),
    [setThing(2)] returns normally and [thing] is 2 right after: the store
    goes to the variable [thing] itself. *)
Theorem setThing_2_sets_thing (st : state) :
  locals st !! "setThing" = Some (ObjSetThing (SetThingClosure "thing")) →
  holds_int st "thing" = true →
  ∃ st',
    call_setThing 2 st = Ok () st' ∧
    locals st' !! "thing" = Some (Int 2) ∧
    read_int "thing" st' = Ok 2 st'.
Proof.
  intros Hobj Hthing. eexists. split; [by apply call_setThing_run |].
  assert (Hnow : (<["thing" := Int 2]> (locals st) : gmap string value) !! "thing"
                 = Some (Int 2)) by apply lookup_insert_eq.
  split; [exact Hnow | by apply read_int_run].
Qed.

Lemma setThing_2_sets_thing_witness :
  locals capture_scope !! "setThing" = Some (ObjSetThing (SetThingClosure "thing")) ∧
  holds_int capture_scope "thing" = true ∧
  ∃ st',
    call_setThing 2 capture_scope = Ok () st' ∧
    locals st' !! "thing" = Some (Int 2) ∧
    read_int "thing" st' = Ok 2 st'.
Proof.
  split; [reflexivity |]. split; [reflexivity |].
  apply (setThing_2_sets_thing capture_scope); reflexivity.
Defined.

(** C10: for every [b], [setThing(b)] returns normally, writes nothing to
    the output, reads nothing from the input, and leaves every variable
    other than [thing] as it was; in particular the closure object
    [lessThan2] keeps its captured value and answers as before. *)
Theorem setThing_frame (b : Z) (st : state) :
  locals st !! "setThing" = Some (ObjSetThing (SetThingClosure "thing")) →
  holds_int st "thing" = true →
  ∃ st',
    call_setThing b st = Ok () st' ∧
    out st' = out st ∧
    inp st' = inp st ∧
    (∀ x : string, x ≠ "thing" → locals st' !! x = locals st !! x) ∧
    (∀ b' : Z, returned (call_lessThan2 b' st') = returned (call_lessThan2 b' st)).
Proof.
  intros Hobj Hthing. eexists. split; [by apply call_setThing_run |].
  assert (Hframe : ∀ x : string, x ≠ "thing" →
            (<["thing" := Int b]> (locals st) : gmap string value) !! x = locals st !! x).
  { intros x Hx. by rewrite lookup_insert_ne. }
  repeat split; [exact Hframe |].
  intros b'. unfold call_lessThan2, lookup_var, mbind, M_bind; simpl.
  rewrite Hframe by done.
  destruct (locals st !! "lessThan2") as [[| |self|]|]; done.
Qed.

Lemma setThing_frame_witness :
  locals capture_scope !! "setThing" = Some (ObjSetThing (SetThingClosure "thing")) ∧
  holds_int capture_scope "thing" = true ∧
  ∃ st',
    call_setThing 7 capture_scope = Ok () st' ∧
    out st' = out capture_scope ∧
    inp st' = inp capture_scope ∧
    (∀ x : string, x ≠ "thing" → locals st' !! x = locals capture_scope !! x) ∧
    (∀ b' : Z, returned (call_lessThan2 b' st') = returned (call_lessThan2 b' capture_scope)).
Proof.
  split; [reflexivity |]. split; [reflexivity |].
  apply (setThing_frame 7 capture_scope); reflexivity.
Defined.

(** ** The blocks as a whole *)

(* what the first, second and fourth block write *)
Example block_functor_output :
  written (block_functor (initial [])) =
    Some ("calling functor with template function:" +:+ endl_char +:+
          "2 3" +:+ endl_char +:+ "0" +:+ endl_char).
Proof. reflexivity. Qed.

Example block_lambda_output :
  written (block_lambda (initial [])) =
    Some ("calling lambda defined function:" +:+ endl_char +:+
          "passing lambda defined function into template function to be called:"
          +:+ endl_char +:+ "5" +:+ endl_char).
Proof. reflexivity. Qed.

Example block_library_output :
  written (block_library (initial [])) =
    Some ("multiply(2, 3): 6" +:+ endl_char +:+
          "numbers in array greater than 103" +:+ endl_char).
Proof. reflexivity. Qed.

(* [main] never gets past the first output of [thing], whatever is typed *)
Example main_reads_indeterminate (input : list Ascii.ascii) :
  main (initial input) = Fault UndefinedBehaviour.
Proof. destruct input as [|c1 [|c2 input]]; reflexivity. Qed.

(** * Further properties of the code *)

(** ** The lambdas for every argument *)

Lemma in_int_false n : in_int n = false ↔ ¬ (INT_MIN ≤ n ≤ INT_MAX).
Proof.
  rewrite <- in_int_spec. destruct (in_int n); split; done.
Qed.

Lemma addition_run (a b : Z) (st : state) :
  call Addition a b st =
    if in_int (a + b) then Ok (a + b) st else Fault UndefinedBehaviour.
Proof.
  unfold call, addition_call, int_add. by destruct (in_int (a + b)).
Qed.

(** X1: the lambda invoked in the declaration of [larger] returns the
    maximum of its two arguments, whatever they are, and has no effect. *)
Theorem larger_lambda_is_max (a b : Z) (st : state) :
  larger_lambda a b st = Ok (Z.max a b) st.
Proof.
  unfold larger_lambda, mret, M_ret. rewrite Z.gtb_ltb.
  destruct (Z.ltb_spec b a); f_equal; lia.
Qed.

(** X2: whatever value [v] the variable [two] holds when [lessThan2] is
    declared, the closure returns the minimum of [v] and its argument and
    has no effect; it still does so after [two] has been assigned another
    value. *)
Theorem lessThan2_is_min (v : Z) (st : state) :
  locals st !! "two" = Some (Int v) →
  ∃ st1,
    decl_lessThan2 st = Ok () st1 ∧
    (∀ b : Z, call_lessThan2 b st1 = Ok (Z.min v b) st1) ∧
    (∀ n b : Z, ∃ st2,
       write_int "two" n st1 = Ok () st2 ∧
       call_lessThan2 b st2 = Ok (Z.min v b) st2).
Proof.
  intros Htwo.
  assert (Hmin : ∀ b, (if v <? b then v else b) = Z.min v b).
  { intros b. destruct (Z.ltb_spec v b); lia. }
  eexists. split.
  { unfold decl_lessThan2.
    rewrite (bind_Ok _ _ _ _ _ (read_int_run _ _ _ Htwo)). reflexivity. }
  set (st1 := State _ _ _).
  assert (Hobj : locals st1 !! "lessThan2" = Some (ObjLessThan2 (LessThan2Closure v)))
    by apply lookup_insert_eq.
  split.
  { intros b. rewrite (call_lessThan2_run _ _ _ Hobj). simpl. by rewrite Hmin. }
  intros n b. eexists. split.
  { apply write_int_run. unfold holds_int; simpl.
    rewrite lookup_insert_ne by done. by rewrite Htwo. }
  set (st2 := State _ _ _).
  assert (Hobj2 : locals st2 !! "lessThan2" = Some (ObjLessThan2 (LessThan2Closure v))).
  { simpl. rewrite lookup_insert_ne by done. apply lookup_insert_eq. }
  rewrite (call_lessThan2_run _ _ _ Hobj2). simpl. by rewrite Hmin.
Qed.

Lemma lessThan2_is_min_witness :
  locals (State "" [] {["two" := Int (-7)]}) !! "two" = Some (Int (-7)) ∧
  ∃ st1,
    decl_lessThan2 (State "" [] {["two" := Int (-7)]}) = Ok () st1 ∧
    (∀ b : Z, call_lessThan2 b st1 = Ok (Z.min (-7) b) st1) ∧
    (∀ n b : Z, ∃ st2,
       write_int "two" n st1 = Ok () st2 ∧
       call_lessThan2 b st2 = Ok (Z.min (-7) b) st2).
Proof.
  split; [reflexivity |].
  apply (lessThan2_is_min (-7) (State "" [] {["two" := Int (-7)]})).
  reflexivity.
Defined.

(** X3: when the sum of [a] and [b] is representable in an [int],
    [addition(a, b)] returns it without any effect, and [operation(a, b,
    addition)] returns it after writing its decimal form and a newline. *)
Theorem addition_returns_sum (a b : Z) (st : state) :
  INT_MIN ≤ a + b ≤ INT_MAX →
  call Addition a b st = Ok (a + b) st ∧
  operation a b Addition st = Ok (a + b) (put (pretty (a + b) +:+ endl_char) st).
Proof.
  intros Hrange. apply in_int_spec in Hrange.
  rewrite operation_run, addition_run, Hrange. done.
Qed.

Lemma addition_returns_sum_witness :
  INT_MIN ≤ 2147483000 + 647 ≤ INT_MAX ∧
  call Addition 2147483000 647 (initial []) = Ok (2147483000 + 647) (initial []) ∧
  operation 2147483000 647 Addition (initial []) =
    Ok (2147483000 + 647) (put (pretty (2147483000 + 647) +:+ endl_char) (initial [])).
Proof.
  assert (Hrange : INT_MIN ≤ 2147483000 + 647 ≤ INT_MAX)
    by (unfold INT_MIN, INT_MAX; lia).
  split; [exact Hrange |].
  exact (addition_returns_sum 2147483000 647 (initial []) Hrange).
Defined.



(** X5: when the product of [a] and [b] is not representable in an [int],
    the multiplication in the lambda held by [multiply] overflows and the
    call has undefined behaviour. *)
Theorem multiply_overflow (a b : Z) (st : state) :
  ¬ (INT_MIN ≤ a * b ≤ INT_MAX) →
  call multiply a b st = Fault UndefinedBehaviour.
Proof.
  intros Hrange. apply in_int_false in Hrange.
  by rewrite multiply_run, Hrange.
Qed.

Lemma multiply_overflow_witness :
  ¬ (INT_MIN ≤ INT_MIN * (-1) ≤ INT_MAX) ∧
  call multiply INT_MIN (-1) (initial []) = Fault UndefinedBehaviour.
Proof.
  assert (Hrange : ¬ (INT_MIN ≤ INT_MIN * (-1) ≤ INT_MAX))
    by (unfold INT_MIN, INT_MAX; lia).
  split; [exact Hrange |].
  exact (multiply_overflow INT_MIN (-1) (initial []) Hrange).
Defined.

(** X6: the two arithmetic lambdas are commutative, faults included:
    swapping the arguments of [addition] or of [multiply] gives the same
    outcome. *)
Theorem addition_multiply_commutative (a b : Z) (st : state) :
  call Addition a b st = call Addition b a st ∧
  call multiply a b st = call multiply b a st.
Proof.
  rewrite !addition_run, !multiply_run.
  by rewrite (Z.add_comm b a), (Z.mul_comm b a).
Qed.

(** ** [operation] with the functor and with the [std::function] object *)

(** X7: [operation(a, b, p)] with the functor [p] writes the line "a b",
    then the line "0", and returns 0, for all [a] and [b]. *)
Theorem operation_printFunctor (a b : Z) (st : state) :
  operation a b PrintFunctor st =
    Ok 0 (put (pretty a +:+ " " +:+ pretty b +:+ endl_char +:+ "0" +:+ endl_char) st).
Proof.
  rewrite operation_run, printFunctor_run, put_put.
  by rewrite !append_assoc.
Qed.

(** X8: the [std::function] object can stand for the lambda it holds in the
    template: when the product of [a] and [b] is representable in an [int],
    [operation(a, b, multiply)] returns the product after writing its
    decimal form and a newline, and changes nothing else. *)
Theorem operation_multiply (a b : Z) (st : state) :
  INT_MIN ≤ a * b ≤ INT_MAX →
  operation a b multiply st = Ok (a * b) (put (pretty (a * b) +:+ endl_char) st).
Proof.
  intros Hrange. apply in_int_spec in Hrange.
  by rewrite operation_run, multiply_run, Hrange.
Qed.

Lemma operation_multiply_witness :
  INT_MIN ≤ (-3) * 5 ≤ INT_MAX ∧
  operation (-3) 5 multiply (initial []) =
    Ok ((-3) * 5) (put (pretty ((-3) * 5) +:+ endl_char) (initial [])).
Proof.
  assert (Hrange : INT_MIN ≤ (-3) * 5 ≤ INT_MAX)
    by (unfold INT_MIN, INT_MAX; lia).
  split; [exact Hrange |].
  exact (operation_multiply (-3) 5 (initial []) Hrange).
Defined.

(** ** The reference capture, call after call *)

(** X9: [setThing(b)] keeps what it needs to be called again: afterwards
    [setThing] is still the closure referring to [thing], [thing] is still
    a live [int], and reading [thing] gives [b]. *)
Theorem setThing_keeps_binding (b : Z) (st : state) :
  locals st !! "setThing" = Some (ObjSetThing (SetThingClosure "thing")) →
  holds_int st "thing" = true →
  ∃ st',
    call_setThing b st = Ok () st' ∧
    locals st' !! "setThing" = Some (ObjSetThing (SetThingClosure "thing")) ∧
    holds_int st' "thing" = true ∧
    read_int "thing" st' = Ok b st'.
Proof.
  intros Hobj Hthing. eexists. split; [by apply call_setThing_run |].
  assert (Hnow : (<["thing" := Int b]> (locals st) : gmap string value) !! "thing"
                 = Some (Int b)) by apply lookup_insert_eq.
  split; [| split].
  - simpl. by rewrite lookup_insert_ne.
  - unfold holds_int; simpl. by rewrite Hnow.
  - by apply read_int_run.
Qed.

Lemma setThing_keeps_binding_witness :
  locals capture_scope !! "setThing" = Some (ObjSetThing (SetThingClosure "thing")) ∧
  holds_int capture_scope "thing" = true ∧
  ∃ st',
    call_setThing (-40) capture_scope = Ok () st' ∧
    locals st' !! "setThing" = Some (ObjSetThing (SetThingClosure "thing")) ∧
    holds_int st' "thing" = true ∧
    read_int "thing" st' = Ok (-40) st'.
Proof.
  split; [reflexivity |]. split; [reflexivity |].
  apply (setThing_keeps_binding (-40) capture_scope); reflexivity.
Defined.

(** X10: of two calls of [setThing] in a row only the second shows:
    [setThing(b1); setThing(b2);] leaves the state that [setThing(b2);]
    alone leaves. *)
Theorem setThing_last_write_wins (b1 b2 : Z) (st : state) :
  locals st !! "setThing" = Some (ObjSetThing (SetThingClosure "thing")) →
  holds_int st "thing" = true →
  (call_setThing b1;; call_setThing b2) st = call_setThing b2 st.
Proof.
  intros Hobj Hthing.
  rewrite (bind_Ok _ _ _ _ _ (call_setThing_run b1 st Hobj Hthing)).
  set (st1 := State _ _ _).
  assert (Hobj1 : locals st1 !! "setThing" = Some (ObjSetThing (SetThingClosure "thing"))).
  { simpl. by rewrite lookup_insert_ne. }
  assert (Hthing1 : holds_int st1 "thing" = true).
  { unfold holds_int; simpl. by rewrite lookup_insert_eq. }
  rewrite (call_setThing_run b2 st1 Hobj1 Hthing1).
  rewrite (call_setThing_run b2 st Hobj Hthing).
  simpl. by rewrite insert_insert_eq.
Qed.

Lemma setThing_last_write_wins_witness :
  locals capture_scope !! "setThing" = Some (ObjSetThing (SetThingClosure "thing")) ∧
  holds_int capture_scope "thing" = true ∧
  (call_setThing 11;; call_setThing 5) capture_scope = call_setThing 5 capture_scope.
Proof.
  split; [reflexivity |]. split; [reflexivity |].
  apply (setThing_last_write_wins 11 5 capture_scope); reflexivity.
Defined.

Lemma decl_setThing_run (st : state) :
  holds_int st "thing" = true →
  decl_setThing st =
    Ok () (State (out st) (inp st)
             (<["setThing" := ObjSetThing (SetThingClosure "thing")]> (locals st))).
Proof.
  unfold holds_int, decl_setThing, lookup_var, mbind, M_bind.
  by destruct (locals st !! "thing").
Qed.

Lemma print_thing_run (n : Z) (st : state) :
  locals st !! "thing" = Some (Int n) →
  print_thing st = Ok () (put ("thing: " +:+ pretty n +:+ endl_char) st).
Proof.
  intros Hthing.
  unfold print_thing, read_int, lookup_var. run.
  rewrite Hthing. by rewrite !put_put.
Qed.

(** X11: from any state in which [thing] is a live [int], initialised or
    not, the statements that declare [setThing], call [setThing(2)] and
    output [thing] run without fault and write exactly the line
    "thing: 2"; [thing] is 2 afterwards and the input is untouched. *)
Theorem setThing_then_print (st : state) :
  holds_int st "thing" = true →
  (decl_setThing;; call_setThing 2;; print_thing) st =
    Ok () (State (out st +:+ "thing: 2" +:+ endl_char) (inp st)
             (<["thing" := Int 2]>
                (<["setThing" := ObjSetThing (SetThingClosure "thing")]> (locals st)))).
Proof.
  intros Hthing.
  rewrite (bind_Ok _ _ _ _ _ (decl_setThing_run st Hthing)).
  set (st1 := State _ _ _).
  assert (Hobj : locals st1 !! "setThing" = Some (ObjSetThing (SetThingClosure "thing")))
    by apply lookup_insert_eq.
  assert (Hthing1 : holds_int st1 "thing" = true).
  { unfold holds_int in *; simpl. by rewrite lookup_insert_ne. }
  rewrite (bind_Ok _ _ _ _ _ (call_setThing_run 2 st1 Hobj Hthing1)).
  rewrite (print_thing_run 2) by apply lookup_insert_eq.
  reflexivity.
Qed.

Lemma setThing_then_print_witness :
  holds_int (State "" [] {["thing" := Indeterminate]}) "thing" = true ∧
  (decl_setThing;; call_setThing 2;; print_thing) (State "" [] {["thing" := Indeterminate]}) =
    Ok () (State ("" +:+ "thing: 2" +:+ endl_char) []
             (<["thing" := Int 2]>
                (<["setThing" := ObjSetThing (SetThingClosure "thing")]>
                   {["thing" := Indeterminate]}))).
Proof.
  split; [reflexivity |].
  exact (setThing_then_print (State "" [] {["thing" := Indeterminate]}) eq_refl).
Defined.

(** ** The blocks from any state *)

#[local] Ltac run_block :=
  unfold block_functor, block_lambda, block_library, block_capture, block,
    decl_larger, larger_lambda, decl_two, decl_lessThan2, decl_smaller,
    call_lessThan2, lessThan2_body, decl_thing, print_thing, read_int,
    lookup_var, declare, cin_get;
  run;
  repeat (rewrite lookup_insert_eq; simpl).

Lemma block_functor_run (st : state) :
  block_functor st =
    Ok () (State (out st +:+ "calling functor with template function:" +:+ endl_char
                    +:+ "2 3" +:+ endl_char +:+ "0" +:+ endl_char)
             (drop 1 (inp st)) (locals st)).
Proof.
  destruct st as [o [|c i] l]; run_block; by rewrite !append_assoc.
Qed.

Lemma block_lambda_run (st : state) :
  block_lambda st =
    Ok () (State (out st +:+ "calling lambda defined function:" +:+ endl_char
                    +:+ "passing lambda defined function into template function to be called:"
                    +:+ endl_char +:+ "5" +:+ endl_char)
             (drop 1 (inp st)) (locals st)).
Proof.
  destruct st as [o [|c i] l]; run_block; by rewrite !append_assoc.
Qed.

Lemma block_library_run (st : state) :
  block_library st =
    Ok () (State (out st +:+ "multiply(2, 3): 6" +:+ endl_char
                    +:+ "numbers in array greater than 103" +:+ endl_char)
             (drop 1 (inp st)) (locals st)).
Proof.
  destruct st as [o [|c i] l]; run_block; by rewrite !append_assoc.
Qed.

Lemma block_capture_run (st : state) :
  block_capture st = Fault UndefinedBehaviour.
Proof. destruct st as [o i l]. run_block. done. Qed.

(** X12: from any state the first block runs without fault, appends
    exactly its heading, the line "2 3" and the line "0" to the output,
    takes one character off the input if there is one, and leaves the
    variables in scope as they were. *)
Theorem block_functor_effect (st : state) :
  block_functor st =
    Ok () (State (out st +:+ "calling functor with template function:" +:+ endl_char
                    +:+ "2 3" +:+ endl_char +:+ "0" +:+ endl_char)
             (drop 1 (inp st)) (locals st)).
Proof. apply block_functor_run. Qed.

(** X13: from any state the second block runs without fault and appends
    its two headings and then the line "5": the direct call
    [addition(2, 3)] writes nothing between the headings.  One character of
    input is taken if there is one; the variables in scope are as before. *)
Theorem block_lambda_effect (st : state) :
  block_lambda st =
    Ok () (State (out st +:+ "calling lambda defined function:" +:+ endl_char
                    +:+ "passing lambda defined function into template function to be called:"
                    +:+ endl_char +:+ "5" +:+ endl_char)
             (drop 1 (inp st)) (locals st)).
Proof. apply block_lambda_run. Qed.

(** X14: from any state the fourth block runs without fault and appends
    the line "multiply(2, 3): 6" and the line "numbers in array greater
    than 103" (the count 3 follows the label without a space).  One
    character of input is taken if there is one; the variables in scope
    are as before. *)
Theorem block_library_effect (st : state) :
  block_library st =
    Ok () (State (out st +:+ "multiply(2, 3): 6" +:+ endl_char
                    +:+ "numbers in array greater than 103" +:+ endl_char)
             (drop 1 (inp st)) (locals st)).
Proof. apply block_library_run. Qed.

(** X15: from any state the statements of the third block up to the
    output of [smaller] run without fault, write the lines "larger of 2 and
    3: 3" and "smaller of 2 and 3: 2", read no input, and bind [larger] to
    3, [two] to 2, [lessThan2] to a closure holding 2 and [smaller] to 2. *)
Theorem capture_first_statements (st : state) :
  (decl_larger;;
   cout_str "larger of 2 and 3: ";; (n ← read_int "larger"; cout_int n);; endl;;
   decl_two;;
   decl_lessThan2;;
   decl_smaller;;
   cout_str "smaller of 2 and 3: ";; (n ← read_int "smaller"; cout_int n);; endl) st =
    Ok () (State (out st +:+ "larger of 2 and 3: 3" +:+ endl_char
                    +:+ "smaller of 2 and 3: 2" +:+ endl_char)
             (inp st)
             (<["smaller" := Int 2]>
                (<["lessThan2" := ObjLessThan2 (LessThan2Closure 2)]>
                   (<["two" := Int 2]> (<["larger" := Int 3]> (locals st)))))).
Proof.
  destruct st as [o i l]. run_block.
  unfold put; simpl. by rewrite !append_assoc.
Qed.

(** X16: from any state the third block has undefined behaviour: its first
    output of [thing] reads the variable right after [int thing;], before
    anything was stored in it. *)
Theorem block_capture_undefined (st : state) :
  block_capture st = Fault UndefinedBehaviour.
Proof. apply block_capture_run. Qed.

(** X17: [main] has undefined behaviour from any state and for any input:
    the first two blocks complete and the third one reads the
    indeterminate [thing]. *)
Theorem main_undefined (st : state) :
  main st = Fault UndefinedBehaviour.
Proof.
  unfold main.
  rewrite (bind_Ok _ _ _ _ _ (block_functor_run st)).
  rewrite (bind_Ok _ _ _ _ _ (block_lambda_run _)).
  by rewrite (bind_Fault _ _ _ _ (block_capture_run _)).
Qed.

(** ** [std::count_if] for every range and predicate *)

(** X18: the count is never negative and never more than the number of
    elements of the range; over an empty range it is 0. *)
Theorem count_if_bounds (range : list Z) (pred : Z → bool) :
  0 ≤ count_if range pred ≤ Z.of_nat (length range) ∧
  count_if [] pred = 0.
Proof.
  split; [| done].
  rewrite count_if_filter.
  pose proof (List.filter_length_le pred range). lia.
Qed.

(** X19: counting over two ranges laid end to end gives the sum of the two
    counts. *)
Theorem count_if_app (l1 l2 : list Z) (pred : Z → bool) :
  count_if (l1 ++ l2) pred = count_if l1 pred + count_if l2 pred.
Proof.
  induction l1 as [|x l1 IH]; simpl.
  - unfold count_if at 2. simpl. lia.
  - rewrite !count_if_cons, IH. lia.
Qed.

(** X20: for every predicate, two ranges with the same elements in any
    order give the same count. *)
Theorem count_if_order_independent (l1 l2 : list Z) (pred : Z → bool) :
  l1 ≡ₚ l2 → count_if l1 pred = count_if l2 pred.
Proof. apply count_if_Permutation. Qed.

Lemma count_if_order_independent_witness :
  [12; -3; 40; 7] ≡ₚ [7; 40; 12; -3] ∧
  count_if [12; -3; 40; 7] Z.even = count_if [7; 40; 12; -3] Z.even.
Proof.
  assert (Hperm : [12; -3; 40; 7] ≡ₚ [7; 40; 12; -3]).
  { apply (bool_decide_unpack _). vm_compute. reflexivity. }
  split; [exact Hperm |].
  exact (count_if_order_independent _ _ Z.even Hperm).
Defined.

(** X21: the count is 0 exactly when no element of the range passes the
    test, and it is the number of elements exactly when all of them do. *)
Theorem count_if_none_all (range : list Z) (pred : Z → bool) :
  (count_if range pred = 0 ↔ ∀ x, x ∈ range → pred x = false) ∧
  (count_if range pred = Z.of_nat (length range) ↔ ∀ x, x ∈ range → pred x = true).
Proof.
  induction range as [|x rest [IH0 IHall]].
  - split; (split; [intros _ y Hy; by apply elem_of_nil in Hy | done]).
  - rewrite count_if_cons.
    assert (Hb : 0 ≤ count_if rest pred ≤ Z.of_nat (length rest)).
    { rewrite count_if_filter.
      pose proof (List.filter_length_le pred rest). lia. }
    split; split.
    + intros Hcount y Hy. apply elem_of_cons in Hy as [-> | Hy].
      * destruct (pred x); [lia | done].
      * apply IH0; [| done]. destruct (pred x); lia.
    + intros Hnone. rewrite (Hnone x) by (apply elem_of_cons; by left).
      rewrite (proj2 IH0); [done |].
      intros y Hy. apply Hnone. apply elem_of_cons; by right.
    + intros Hcount y Hy. simpl length in Hcount.
      apply elem_of_cons in Hy as [-> | Hy].
      * destruct (pred x); [done | lia].
      * apply IHall; [| done]. destruct (pred x); lia.
    + intros Hall. rewrite (Hall x) by (apply elem_of_cons; by left).
      rewrite (proj2 IHall).
      * simpl length. lia.
      * intros y Hy. apply Hall. apply elem_of_cons; by right.
Qed.

(** X22: with the predicate [greaterThan10], the count over any range is
    the number of its elements that are greater than 10. *)
Theorem count_if_greaterThan10 (range : list Z) :
  count_if range greaterThan10 =
    Z.of_nat (length (filter (λ x, 10 < x) range)).
Proof.
  induction range as [|x rest IH]; [done |].
  rewrite count_if_cons, IH. unfold greaterThan10. rewrite Z.gtb_ltb.
  destruct (Z.ltb_spec 10 x).
  - rewrite filter_cons_True by done. simpl length. lia.
  - rewrite filter_cons_False by lia. lia.
Qed.
